(** * generate_shader_header.py: the Metal shader header generator

    A shallow embedding of [video/out/metal/generate_shader_header.py] and the
    properties of its escaping pass, of the header it composes and of its
    file and exit behaviour.

    Text is modelled as [string] (a sequence of 8-bit characters; a character
    outside ASCII is the sequence of its UTF-8 code units, none of which is
    one of the three characters the script treats specially).  The file
    system, standard output and the exceptions of the interpreter are
    modelled by an explicit world and a small exception monad. *)

From Stdlib Require Import Ascii String ZArith Lia.
From stdpp Require Import base option list strings gmap.

Local Open Scope stdpp_scope.

(** ** Characters and fixed strings of the script *)

Module Chars.
Definition backslash : ascii := "\"%char.
Definition dquote : ascii := "034"%char.
Definition newline : ascii := "010"%char.
Definition carriage_return : ascii := "013"%char.
Definition slash : ascii := "/"%char.
Definition letter_n : ascii := "n"%char.
End Chars.
Import Chars.

(** A string of one character. *)
Definition str1 (c : ascii) : string := String c EmptyString.

(** The replacement texts of lines 14 to 16 of the script, as Python reads its
    own literals: two backslashes; a backslash and a double quote; and the
    splice, which is backslash, n, double quote, a real newline, double
    quote. *)
Definition two_backslashes : string := String backslash (str1 backslash).
Definition escaped_dquote : string := String backslash (str1 dquote).
Definition line_splice : string :=
  String backslash (String letter_n (String dquote (String newline (str1 dquote)))).

(** ** Python's [str.replace]

    [s.replace(old, new)] replaces the non-overlapping occurrences of [old]
    in [s], scanning from the left.  [skip] counts the characters of a matched
    occurrence that are still to be passed over.  An empty [old] matches
    before every character and at the end. *)

Fixpoint replace_from (old new : string) (skip : nat) (s : string) : string :=
  match s with
  | EmptyString => EmptyString
  | String c s' =>
      match skip with
      | S k => replace_from old new k s'
      | O =>
          if String.prefix old s
          then new +:+ replace_from old new (String.length old - 1) s'
          else String c (replace_from old new 0 s')
      end
  end.

Fixpoint replace_empty (new s : string) : string :=
  match s with
  | EmptyString => new
  | String c s' => new +:+ String c (replace_empty new s')
  end.

Definition replace (old new s : string) : string :=
  match old with
  | EmptyString => replace_empty new s
  | String _ _ => replace_from old new 0 s
  end.

(** ** The escaping pass (lines 14 to 16 of [generate_header]) *)

Definition escape (shader_source : string) : string :=
  let shader_source := replace (str1 backslash) two_backslashes shader_source in
  let shader_source := replace (str1 dquote) escaped_dquote shader_source in
  let shader_source := replace (str1 newline) line_splice shader_source in
  shader_source.

(** ** [os.path.basename] (posixpath): the text after the last slash *)

Fixpoint basename_from (rest seg : string) : string :=
  match rest with
  | EmptyString => seg
  | String c rest' =>
      if Ascii.eqb c slash then basename_from rest' rest'
      else basename_from rest' seg
  end.

Definition basename (p : string) : string := basename_from p p.

(** ** The header text (lines 19 to 21 of [generate_header]) *)

Definition nl : string := str1 newline.

Definition comment_block (input_file : string) : string :=
  ("// Auto-generated from " +:+ basename input_file +:+ nl)
  +:+ ("// Do not edit manually" +:+ nl +:+ nl).

(** The string literal of the header: the escaped text between two double
    quotes. *)
Definition literal_payload (shader_source : string) : string :=
  str1 dquote +:+ shader_source +:+ str1 dquote.

Definition header_content (input_file shader_source : string) : string :=
  comment_block input_file +:+ (literal_payload shader_source +:+ nl).

(** The line printed on success (line 26). *)
Definition confirmation (output_file input_file : string) : string :=
  "Generated " +:+ output_file +:+ " from " +:+ input_file.

Definition usage : string :=
  "Usage: generate_shader_header.py <input.metal> <output.h>".


(** ** The world the script runs in

    [files] maps a path to the text of the regular file there, as a file
    object in text mode presents it.  [read_denied] and [write_refused] are the
    operating system's answers to an attempt to open a path: reading an
    existing file may be denied, and opening for writing may be refused (no
    permission, or no directory to create the file in).  [stdout] holds the
    lines printed so far and [opened] the log of the calls of [open], oldest
    first.  Line endings are those of a POSIX system, where text mode writes a
    newline as it is.

    The model stops at these points.  A path is its spelling: two spellings
    that the operating system resolves to one file are two keys of [files],
    so nothing is stated here about files other than those the script is
    given.  The stored text is text that decodes.  Once a file is open,
    writing to it and closing it succeed, and so does printing to standard
    output. *)

Inductive OSErrorKind : Type := FileNotFoundError | PermissionError.

Inductive Mode : Type := ModeR | ModeW.

Record World : Type := mkWorld {
  files : gmap string string;
  read_denied : string -> bool;
  write_refused : string -> option OSErrorKind;
  stdout : list string;
  opened : list (string * Mode)
}.

(** Exceptions.  In Python 3 [IOError] is another name of [OSError]. *)
Inductive Exn : Type :=
  | OSError (kind : OSErrorKind) (filename : string)
  | IndexError
  | SystemExit (code : Z).

Inductive Result (A : Type) : Type :=
  | Ok (a : A)
  | Raise (e : Exn).
Arguments Ok {A} a.
Arguments Raise {A} e.

Definition IO (A : Type) : Type := World -> Result A * World.

Definition ret {A} (a : A) : IO A := fun w => (Ok a, w).

Definition raise {A} (e : Exn) : IO A := fun w => (Raise e, w).

Definition bind {A B} (m : IO A) (k : A -> IO B) : IO B :=
  fun w =>
    match m w with
    | (Ok a, w') => k a w'
    | (Raise e, w') => (Raise e, w')
    end.

Notation "x <- m ;; k" := (bind m (fun x => k))
  (at level 100, m at next level, right associativity).
Notation "m ;;; k" := (bind m (fun _ => k))
  (at level 100, right associativity).

Definition log_open (path : string) (mode : Mode) (w : World) : World :=
  mkWorld (files w) (read_denied w) (write_refused w) (stdout w)
          (opened w ++ [(path, mode)]).

Definition set_file (path text : string) (w : World) : World :=
  mkWorld (<[path := text]> (files w)) (read_denied w) (write_refused w)
          (stdout w) (opened w).

(** Universal newlines: a text file opened for reading with the default
    [newline] hands a carriage return, alone or before a newline, over as one
    newline. *)
Fixpoint universal_newlines (s : string) : string :=
  match s with
  | EmptyString => EmptyString
  | String c s' =>
      if Ascii.eqb c carriage_return then
        match s' with
        | String c' s'' =>
            if Ascii.eqb c' newline then String newline (universal_newlines s'')
            else String newline (universal_newlines s')
        | EmptyString => str1 newline
        end
      else String c (universal_newlines s')
  end.

(** [with open(path, 'r') as f: f.read()] *)
Definition open_read (path : string) : IO string :=
  fun w =>
    let w := log_open path ModeR w in
    match files w !! path with
    | None => (Raise (OSError FileNotFoundError path), w)
    | Some text =>
        if read_denied w path then (Raise (OSError PermissionError path), w)
        else (Ok (universal_newlines text), w)
    end.

(** The error of an [open] for reading that fails. *)
Definition read_error (w : World) (path : string) : OSErrorKind :=
  match files w !! path with
  | None => FileNotFoundError
  | Some _ => PermissionError
  end.

(** [open(path, 'w')]: the file is created, or emptied when it exists. *)
Definition open_write (path : string) : IO unit :=
  fun w =>
    let w := log_open path ModeW w in
    match write_refused w path with
    | Some kind => (Raise (OSError kind path), w)
    | None => (Ok tt, set_file path EmptyString w)
    end.

(** [f.write(text)] on the file opened at [path]: the text goes to the end of
    what was written since the file was opened. *)
Definition write (path text : string) : IO unit :=
  fun w => (Ok tt, set_file path (default EmptyString (files w !! path) +:+ text) w).

(** [print(line)] *)
Definition print (line : string) : IO unit :=
  fun w => (Ok tt, mkWorld (files w) (read_denied w) (write_refused w)
                           (stdout w ++ [line +:+ nl]) (opened w)).

(** [sys.exit(code)] *)
Definition sys_exit {A} (code : Z) : IO A := raise (SystemExit code).

(** [argv[i]] *)
Definition index (argv : list string) (i : nat) : IO string :=
  match argv !! i with
  | Some a => ret a
  | None => raise IndexError
  end.

(** ** The script *)

Definition generate_header (input_file output_file : string) : IO unit :=
  shader_source <- open_read input_file ;;
  let shader_source := escape shader_source in
  let header_content := header_content input_file shader_source in
  open_write output_file ;;;
  write output_file header_content ;;;
  print (confirmation output_file input_file).

Definition main (argv : list string) : IO unit :=
  if negb (length argv =? 3)%nat then
    print usage ;;;
    sys_exit 1
  else
    input_file <- index argv 1 ;;
    output_file <- index argv 2 ;;
    generate_header input_file output_file.

(** The exit status of the interpreter: 0 when the script runs to its end,
    the code of [sys.exit], and 1 after any other exception, which nothing in
    the script catches. *)
Definition exit_status {A} (r : Result A) : Z :=
  match r with
  | Ok _ => 0
  | Raise (SystemExit code) => code
  | Raise _ => 1
  end%Z.

Definition run (argv : list string) (w : World) : Z * World :=
  let (r, w') := main argv w in (exit_status r, w').

(** The world with the given files, all permitted, and nothing printed. *)
Definition world_of (fs : gmap string string) : World :=
  mkWorld fs (fun _ => false) (fun _ => None) [] [].


(** ** Reading a header back

    The reader of the generated literal is no part of the script: it is the
    C-style reading that the header is written for.  Adjacent string literals,
    with only white space between them, are one value; inside a literal a
    backslash starts an escape, and the three escapes the script writes are
    undone in one pass from the left. *)

(** Put a character in front of the literal that is being read. *)
Definition push (c : ascii) (segs : list string) : list string :=
  match segs with
  | [] => [str1 c]
  | seg :: segs' => String c seg :: segs'
  end.

(** The literal segments of a text, in order, escapes not yet undone.
    [inside] tells whether a literal is open.  The text is refused when a
    literal is left open, when a line ends inside a literal, and when
    something else than white space stands between two literals. *)
Fixpoint literal_segments (inside : bool) (src : string) : option (list string) :=
  match src with
  | EmptyString => if inside then None else Some []
  | String c rest =>
      if inside then
        if Ascii.eqb c dquote then cons EmptyString <$> literal_segments false rest
        else if Ascii.eqb c newline then None
        else if Ascii.eqb c backslash then
          match rest with
          | String e rest' => push c <$> (push e <$> literal_segments true rest')
          | EmptyString => None
          end
        else push c <$> literal_segments true rest
      else
        if Ascii.eqb c dquote then literal_segments true rest
        else if Ascii.is_space c then literal_segments false rest
        else None
  end.

(** Undo the escapes: two backslashes are one backslash, backslash and double
    quote are a double quote, backslash and n are a newline.  Any other use of
    a backslash is refused. *)
Fixpoint unescape (s : string) : option string :=
  match s with
  | EmptyString => Some EmptyString
  | String c rest =>
      if Ascii.eqb c backslash then
        match rest with
        | String e rest' =>
            if Ascii.eqb e backslash then String backslash <$> unescape rest'
            else if Ascii.eqb e dquote then String dquote <$> unescape rest'
            else if Ascii.eqb e letter_n then String newline <$> unescape rest'
            else None
        | EmptyString => None
        end
      else String c <$> unescape rest
  end.

(** The number of places of [s] where [pat] starts. *)
Fixpoint count_sub (pat s : string) : nat :=
  match s with
  | EmptyString => 0
  | String c s' =>
      (if String.prefix pat (String c s') then 1 else 0) + count_sub pat s'
  end.

(** The number of occurrences of the character [c] in [s]. *)
Fixpoint count_char (c : ascii) (s : string) : nat :=
  match s with
  | EmptyString => 0
  | String x s' => (if Ascii.eqb x c then 1 else 0) + count_char c s'
  end.

(** A text without backslash, double quote and newline. *)
Definition plain (s : string) : Prop :=
  count_char backslash s = 0 /\ count_char dquote s = 0 /\ count_char newline s = 0.

#[global] Instance plain_dec (s : string) : Decision (plain s).
Proof. unfold plain. apply _. Defined.

(** The text after the last newline of [s]: its last line. *)
Fixpoint last_line_from (rest line : string) : string :=
  match rest with
  | EmptyString => line
  | String c rest' =>
      if Ascii.eqb c newline then last_line_from rest' rest'
      else last_line_from rest' line
  end.

Definition last_line (s : string) : string := last_line_from s s.

(** The empty literal: two double quotes. *)
Definition empty_literal : string := String dquote (str1 dquote).

(** ** The escaping pass, character by character *)

(** What the three replacements together make of one character. *)
Definition esc_char (c : ascii) : string :=
  if Ascii.eqb c backslash then two_backslashes
  else if Ascii.eqb c dquote then escaped_dquote
  else if Ascii.eqb c newline then line_splice
  else str1 c.

Fixpoint esc_map (s : string) : string :=
  match s with
  | EmptyString => EmptyString
  | String c s' => esc_char c +:+ esc_map s'
  end.

(** Replacing one character by a text. *)
Fixpoint subst_char (c : ascii) (new s : string) : string :=
  match s with
  | EmptyString => EmptyString
  | String x s' =>
      if Ascii.eqb x c then new +:+ subst_char c new s'
      else String x (subst_char c new s')
  end.


(** ** Case analysis on a character *)

(** The ways a character can meet the three special ones. *)
Inductive char_kind (c : ascii) : Prop :=
  | is_backslash : c = backslash -> char_kind c
  | is_dquote : c = dquote -> char_kind c
  | is_newline : c = newline -> char_kind c
  | is_other : Ascii.eqb c backslash = false -> Ascii.eqb c dquote = false ->
               Ascii.eqb c newline = false -> char_kind c.

(** ** Sample inputs and worlds *)

(** A shader of two lines, each ended by a newline. *)
Definition two_lines : string := "float a;" +:+ nl +:+ "float b;" +:+ nl.

(** The input of the scenario of C4: say, a space, hi between double quotes,
    and one backslash. *)
Definition say_hi : string :=
  "say " +:+ str1 dquote +:+ "hi" +:+ str1 dquote +:+ str1 backslash.

Definition say_hi_escaped : string :=
  "say " +:+ escaped_dquote +:+ "hi" +:+ escaped_dquote +:+ two_backslashes.

(** A world where the output file exists already, with other content. *)
Definition stale_world : World :=
  world_of {[ "shaders/blit.metal" := two_lines; "blit.h" := "stale" ]}.

(** Two inputs of one base name and one content, in two directories. *)
Definition two_dirs : World :=
  world_of {[ "metal/blit.metal" := two_lines; "gl/blit.metal" := two_lines ]}.

(** A second world: the same shader under another directory, beside other
    files. *)
Definition stale_world_gl : World :=
  world_of {[ "gl/blit.metal" := two_lines; "gl.h" := "stale"; "notes.txt" := "x" ]}.

(** Undoing the escapes by three replacements, one after the other, is not
    the inverse: the text backslash, n comes back as a newline. *)
Definition unescape_by_passes (s : string) : string :=
  replace (String backslash (str1 letter_n)) nl
    (replace escaped_dquote (str1 dquote)
       (replace two_backslashes (str1 backslash) s)).

(** ** The final segment of a path

    [seg] is the final segment of the path [p]: it has no slash, and [p] is
    [seg] alone or some text, a slash, and [seg].  A path has one final
    segment; that of a path ending in a slash is empty. *)
Definition final_segment (p seg : string) : Prop :=
  count_char slash seg = 0 /\
  (p = seg \/ exists dir, p = dir +:+ str1 slash +:+ seg).

(** ** Reading a whole header file back

    The written file is read as C source: a line comment runs from two
    slashes to the end of its line, white space separates, and adjacent
    literals are one value.  Inside a literal the reading is that of
    [literal_segments].  The joining of lines by a backslash at the end of a
    line is left out: the script writes a real newline only behind a double
    quote, so it could only lengthen a comment. *)




(** ** Further notions for the properties of a run *)

(** A text with the line endings of DOS: a carriage return before every
    newline. *)
Definition dos_line_endings (t : string) : string :=
  replace (str1 newline) (String carriage_return (str1 newline)) t.

(** The four ways a run of the script ends, each with the exception that
    ends it, if any, and the world it leaves. *)
Inductive Outcome (argv : list string) (w : World) : Result unit -> World -> Prop :=
  | UsageShown :
      length argv <> 3 ->
      Outcome argv w (Raise (SystemExit 1)) (print usage w).2
  | InputUnreadable (prog i o : string) :
      argv = [prog; i; o] ->
      files w !! i = None \/ read_denied w i = true ->
      Outcome argv w (Raise (OSError (read_error w i) i)) (log_open i ModeR w)
  | OutputRefused (prog i o text : string) (kind : OSErrorKind) :
      argv = [prog; i; o] ->
      files w !! i = Some text -> read_denied w i = false ->
      write_refused w o = Some kind ->
      Outcome argv w (Raise (OSError kind o))
              (log_open o ModeW (log_open i ModeR w))
  | HeaderWritten (prog i o text : string) :
      argv = [prog; i; o] ->
      files w !! i = Some text -> read_denied w i = false ->
      write_refused w o = None ->
      Outcome argv w (Ok tt)
              (print (confirmation o i)
                 (set_file o (header_content i (escape (universal_newlines text)))
                    (log_open o ModeW (log_open i ModeR w)))).2.

(** A world like [stale_world] where the header may not be written. *)
Definition read_only_world : World :=
  mkWorld {[ "shaders/blit.metal" := two_lines; "blit.h" := "stale" ]}
          (fun _ => false)
          (fun p => if String.eqb p "blit.h" then Some PermissionError else None)
          [] [].

(** * Lemmas *)

(** ** Strings *)

Section StringFacts.

Lemma app_nil_l (s : string) : EmptyString +:+ s = s.
Proof. reflexivity. Qed.

Lemma app_cons (c : ascii) (a b : string) : String c a +:+ b = String c (a +:+ b).
Proof. reflexivity. Qed.

Lemma app_nil_r (s : string) : s +:+ EmptyString = s.
Proof. induction s as [|c s IH]; [reflexivity|]. rewrite app_cons, IH. reflexivity. Qed.

Lemma app_assoc (a b c : string) : (a +:+ b) +:+ c = a +:+ (b +:+ c).
Proof.
  induction a as [|x a IH]; [reflexivity|].
  rewrite !app_cons, IH. reflexivity.
Qed.

Lemma length_app (a b : string) :
  String.length (a +:+ b) = String.length a + String.length b.
Proof.
  induction a as [|x a IH]; [reflexivity|].
  rewrite app_cons. simpl. rewrite IH. reflexivity.
Qed.

Lemma prefix_nil (s : string) : String.prefix EmptyString s = true.
Proof. destruct s; reflexivity. Qed.

Lemma prefix_cons (a b : ascii) (p s : string) :
  String.prefix (String a p) (String b s) = Ascii.eqb a b && String.prefix p s.
Proof.
  simpl. destruct (ascii_dec a b) as [->|Hne].
  - rewrite Ascii.eqb_refl. reflexivity.
  - apply Ascii.eqb_neq in Hne. rewrite Hne. reflexivity.
Qed.

Lemma count_char_app (c : ascii) (a b : string) :
  count_char c (a +:+ b) = count_char c a + count_char c b.
Proof.
  induction a as [|x a IH]; [reflexivity|].
  rewrite app_cons. simpl. rewrite IH. lia.
Qed.

Lemma concat_push (c : ascii) (segs : list string) :
  String.concat EmptyString (push c segs) = String c (String.concat EmptyString segs).
Proof. destruct segs as [|seg [|seg' segs]]; reflexivity. Qed.

Lemma length_push (c : ascii) (segs : list string) :
  segs <> [] -> length (push c segs) = length segs.
Proof. destruct segs; [congruence|reflexivity]. Qed.

Lemma push_not_nil (c : ascii) (segs : list string) : push c segs <> [].
Proof. destruct segs; discriminate. Qed.

End StringFacts.

Lemma char_kind_total (c : ascii) : char_kind c.
Proof.
  destruct (Ascii.eqb_spec c backslash) as [->|Hb]; [now apply is_backslash|].
  destruct (Ascii.eqb_spec c dquote) as [->|Hq]; [now apply is_dquote|].
  destruct (Ascii.eqb_spec c newline) as [->|Hn]; [now apply is_newline|].
  apply is_other; now apply Ascii.eqb_neq.
Qed.

(** Case analysis on a character of the input; in the last case the three
    comparisons are rewritten away. *)
Ltac char_cases c :=
  destruct (char_kind_total c) as [->| ->| ->|?Hb ?Hq ?Hn].

(** ** [replace] with a pattern of one character *)

Lemma replace_single (c : ascii) (new s : string) :
  replace (str1 c) new s = subst_char c new s.
Proof.
  unfold replace, str1.
  induction s as [|x s IH]; [reflexivity|].
  cbn [replace_from subst_char].
  rewrite prefix_cons, prefix_nil, andb_true_r, (Ascii.eqb_sym c x).
  change (String.length (String c EmptyString) - 1) with 0.
  rewrite IH. reflexivity.
Qed.

Lemma subst_char_app (c : ascii) (new a b : string) :
  subst_char c new (a +:+ b) = subst_char c new a +:+ subst_char c new b.
Proof.
  induction a as [|x a IH]; [reflexivity|].
  rewrite app_cons. cbn [subst_char]. rewrite IH.
  destruct (Ascii.eqb x c); [rewrite app_assoc|]; reflexivity.
Qed.

Lemma esc_char_step (c : ascii) :
  subst_char newline line_splice
    (subst_char dquote escaped_dquote (subst_char backslash two_backslashes (str1 c)))
  = esc_char c.
Proof.
  unfold esc_char. char_cases c; try reflexivity.
  unfold str1. cbn [subst_char]. rewrite Hb. cbn [subst_char]. rewrite Hq.
  cbn [subst_char]. rewrite Hn. reflexivity.
Qed.

(** The three passes are one pass: each character of the input is escaped
    once, and no pass touches what an earlier one has written. *)
Lemma escape_esc_map (s : string) : escape s = esc_map s.
Proof.
  unfold escape. rewrite !replace_single.
  induction s as [|c s IH]; [reflexivity|].
  change (String c s) with (str1 c +:+ s).
  rewrite !subst_char_app, IH, esc_char_step. reflexivity.
Qed.

Lemma esc_map_app (a b : string) : esc_map (a +:+ b) = esc_map a +:+ esc_map b.
Proof.
  induction a as [|c a IH]; [reflexivity|].
  rewrite app_cons. cbn [esc_map]. rewrite IH, app_assoc. reflexivity.
Qed.

Lemma escape_app (a b : string) : escape (a +:+ b) = escape a +:+ escape b.
Proof. rewrite !escape_esc_map. apply esc_map_app. Qed.


Lemma esc_char_backslash : esc_char backslash = two_backslashes.
Proof. reflexivity. Qed.

Lemma esc_char_dquote : esc_char dquote = escaped_dquote.
Proof. reflexivity. Qed.

Lemma esc_char_newline : esc_char newline = line_splice.
Proof. reflexivity. Qed.

Lemma esc_char_other (c : ascii) :
  Ascii.eqb c backslash = false -> Ascii.eqb c dquote = false ->
  Ascii.eqb c newline = false -> esc_char c = str1 c.
Proof. intros Hb Hq Hn. unfold esc_char. rewrite Hb, Hq, Hn. reflexivity. Qed.

(** Unfold the escape of the first character of the input. *)
Ltac esc_head :=
  cbn [esc_map];
  rewrite ?esc_char_backslash, ?esc_char_dquote, ?esc_char_newline;
  try (rewrite esc_char_other by assumption);
  unfold two_backslashes, escaped_dquote, line_splice, str1;
  rewrite ?app_cons, ?app_nil_l.

(** ** Where a line splice can start *)

(** An escaped text never starts with a bare double quote. *)
Lemma esc_map_no_dquote_head (s x : string) :
  String.prefix (String dquote x) (esc_map s) = false.
Proof.
  destruct s as [|c s]; [reflexivity|].
  char_cases c; esc_head; try reflexivity.
  rewrite prefix_cons, (Ascii.eqb_sym dquote c), Hq. reflexivity.
Qed.

(** Nor with the letter n and a bare double quote. *)
Lemma esc_map_no_n_dquote_head (s x : string) :
  String.prefix (String letter_n (String dquote x)) (esc_map s) = false.
Proof.
  destruct s as [|c s]; [reflexivity|].
  char_cases c; esc_head; try reflexivity.
  rewrite prefix_cons, esc_map_no_dquote_head. apply andb_false_r.
Qed.

Lemma count_splices (s : string) :
  count_sub line_splice (esc_map s) = count_char newline s.
Proof.
  induction s as [|c s IH]; [reflexivity|].
  cbn [count_char]. rewrite <- IH. clear IH.
  char_cases c; esc_head; cbn [count_sub]; rewrite !prefix_cons.
  - (* backslash *)
    rewrite esc_map_no_n_dquote_head. reflexivity.
  - (* double quote *)
    reflexivity.
  - (* newline *)
    rewrite prefix_nil. reflexivity.
  - (* any other character *)
    rewrite (Ascii.eqb_sym backslash c), Hb, Hn. reflexivity.
Qed.

(** ** Reading the escaped text back *)

Lemma segments_esc_map (s : string) :
  exists segs,
    literal_segments true (esc_map s +:+ str1 dquote) = Some segs /\
    length segs = S (count_char newline s) /\
    unescape (String.concat EmptyString segs) = Some s.
Proof.
  induction s as [|c s (segs & Hsegs & Hlen & Hun)].
  - exists [EmptyString]. repeat split; reflexivity.
  - assert (Hne : segs <> []) by (intros ->; discriminate).
    unfold str1 in Hsegs. cbn [count_char].
    char_cases c; esc_head.
    + exists (push backslash (push backslash segs)).
      cbn [literal_segments]. rewrite Hsegs.
      rewrite !length_push, !concat_push by auto using push_not_nil.
      cbn [unescape]. rewrite Hun. repeat split; auto.
    + exists (push backslash (push dquote segs)).
      cbn [literal_segments]. rewrite Hsegs.
      rewrite !length_push, !concat_push by auto using push_not_nil.
      cbn [unescape]. rewrite Hun. repeat split; auto.
    + exists (push backslash (push letter_n (EmptyString :: segs))).
      cbn [literal_segments]. rewrite Hsegs.
      rewrite !length_push, !concat_push by auto using push_not_nil.
      cbn [unescape].
      replace (String.concat EmptyString (EmptyString :: segs))
        with (String.concat EmptyString segs) by (destruct segs; [congruence|reflexivity]).
      rewrite Hun. cbn [length]. rewrite Hlen. repeat split; auto.
    + exists (push c segs).
      cbn [literal_segments]. rewrite Hb, Hq, Hn, Hsegs.
      rewrite !length_push, !concat_push by auto.
      cbn [unescape]. rewrite Hb, Hun. repeat split; auto.
Qed.


(** ** What escaping does to a plain text, and to the length of any text *)

Lemma plain_cons (c : ascii) (s : string) :
  plain (String c s) ->
  Ascii.eqb c backslash = false /\ Ascii.eqb c dquote = false /\
  Ascii.eqb c newline = false /\ plain s.
Proof.
  unfold plain. cbn [count_char].
  destruct (Ascii.eqb c backslash), (Ascii.eqb c dquote), (Ascii.eqb c newline);
    intros (H1 & H2 & H3); try discriminate; repeat split; assumption.
Qed.

Lemma esc_map_plain (s : string) : plain s -> esc_map s = s.
Proof.
  induction s as [|c s IH]; [reflexivity|].
  intros (Hb & Hq & Hn & Hs)%plain_cons.
  cbn [esc_map]. rewrite esc_char_other, IH by assumption. reflexivity.
Qed.

Lemma length_esc_map (s : string) :
  String.length (esc_map s)
  = String.length s + count_char backslash s + count_char dquote s
    + 4 * count_char newline s.
Proof.
  induction s as [|c s IH]; [reflexivity|].
  cbn [esc_map]. rewrite length_app, IH. clear IH. cbn [count_char String.length].
  char_cases c.
  - rewrite esc_char_backslash. cbn. lia.
  - rewrite esc_char_dquote. cbn. lia.
  - rewrite esc_char_newline. cbn. lia.
  - rewrite esc_char_other, Hb, Hq, Hn by assumption. cbn. lia.
Qed.

(** Every special character of the input leaves a backslash in the output. *)
Lemma backslashes_esc_map (s : string) :
  count_char backslash s + count_char dquote s + count_char newline s
  <= count_char backslash (esc_map s).
Proof.
  induction s as [|c s IH]; [reflexivity|].
  cbn [esc_map]. rewrite count_char_app. cbn [count_char].
  char_cases c.
  - rewrite esc_char_backslash. cbn. lia.
  - rewrite esc_char_dquote. cbn. lia.
  - rewrite esc_char_newline. cbn. lia.
  - rewrite esc_char_other, Hb, Hq, Hn by assumption. cbn. rewrite Hb. lia.
Qed.

(** ** Line endings on input *)

Lemma universal_newlines_final_newline (t : string) :
  exists u, universal_newlines (t +:+ nl) = u +:+ nl.
Proof.
  assert (H : forall n t, String.length t <= n ->
                          exists u, universal_newlines (t +:+ nl) = u +:+ nl).
  { clear t. induction n as [|n IH]; intros [|c t] Hlen; cbn [String.length] in Hlen;
      try lia; try (exists EmptyString; reflexivity).
    rewrite app_cons. cbn [universal_newlines].
    destruct (Ascii.eqb c carriage_return).
    - destruct t as [|c' t].
      + exists EmptyString. reflexivity.
      + rewrite app_cons. destruct (Ascii.eqb c' newline).
        * destruct (IH t) as [u Hu]; [cbn [String.length] in Hlen; lia|].
          exists (String newline u). rewrite Hu. reflexivity.
        * rewrite <- app_cons.
          destruct (IH (String c' t)) as [u Hu]; [lia|].
          exists (String newline u). rewrite Hu. reflexivity.
    - destruct (IH t) as [u Hu]; [lia|].
      exists (String c u). rewrite Hu. reflexivity. }
  apply (H (String.length t)). lia.
Qed.

(** ** The last line of a text *)

Lemma last_line_from_app (a b seg : string) :
  last_line_from (a +:+ String newline b) seg = last_line_from b b.
Proof.
  revert seg. induction a as [|c a IH]; intros seg.
  - reflexivity.
  - rewrite app_cons. cbn [last_line_from].
    destruct (Ascii.eqb c newline); apply IH.
Qed.

(** ** One run of [generate_header] *)

Section Run.

Variable w : World.
Variables input_file output_file : string.

Lemma open_read_missing :
  files w !! input_file = None ->
  open_read input_file w
  = (Raise (OSError FileNotFoundError input_file), log_open input_file ModeR w).
Proof. intros H. unfold open_read. cbn [files log_open]. rewrite H. reflexivity. Qed.

Lemma open_read_denied (text : string) :
  files w !! input_file = Some text -> read_denied w input_file = true ->
  open_read input_file w
  = (Raise (OSError PermissionError input_file), log_open input_file ModeR w).
Proof.
  intros H Hd. unfold open_read. cbn [files read_denied log_open].
  rewrite H, Hd. reflexivity.
Qed.

Lemma open_read_ok (text : string) :
  files w !! input_file = Some text -> read_denied w input_file = false ->
  open_read input_file w
  = (Ok (universal_newlines text), log_open input_file ModeR w).
Proof.
  intros H Hd. unfold open_read. cbn [files read_denied log_open].
  rewrite H, Hd. reflexivity.
Qed.

(** A run that can read its input and open its output. *)
Lemma generate_header_ok (text : string) :
  files w !! input_file = Some text ->
  read_denied w input_file = false ->
  write_refused w output_file = None ->
  exists w',
    generate_header input_file output_file w = (Ok tt, w') /\
    files w' = <[output_file := header_content input_file (escape (universal_newlines text))]>
                 (files w) /\
    stdout w' = stdout w ++ [confirmation output_file input_file +:+ nl] /\
    opened w' = opened w ++ [(input_file, ModeR); (output_file, ModeW)].
Proof.
  intros Hin Hd Hout. unfold generate_header, bind.
  rewrite (open_read_ok text) by assumption.
  unfold open_write. cbn [write_refused log_open]. rewrite Hout.
  unfold write, print, set_file. cbn [files stdout opened].
  eexists. split; [reflexivity|].
  unfold log_open. cbn [files stdout opened].
  rewrite lookup_insert_eq, insert_insert_eq, <- (assoc_L (++)).
  repeat split; reflexivity.
Qed.

(** A run that cannot read its input stops at the first [open]. *)
Lemma generate_header_unreadable :
  files w !! input_file = None \/ read_denied w input_file = true ->
  generate_header input_file output_file w
  = (Raise (OSError (read_error w input_file) input_file),
     log_open input_file ModeR w).
Proof.
  intros H. unfold generate_header, bind, read_error.
  destruct (files w !! input_file) as [text|] eqn:Hin.
  - destruct H as [?|Hden]; [discriminate|].
    rewrite (open_read_denied text) by assumption. reflexivity.
  - rewrite open_read_missing by assumption. reflexivity.
Qed.

End Run.


Lemma header_content_basename (in1 in2 body : string) :
  basename in1 = basename in2 -> header_content in1 body = header_content in2 body.
Proof. intros H. unfold header_content, comment_block. rewrite H. reflexivity. Qed.

(** ** The base name is the final segment *)

Lemma basename_from_spec (rest seg : string) :
  (count_char slash rest = 0 /\ basename_from rest seg = seg) \/
  (count_char slash (basename_from rest seg) = 0 /\
   exists dir, rest = dir +:+ str1 slash +:+ basename_from rest seg).
Proof.
  revert seg. induction rest as [|c rest IH]; intros seg.
  - left. split; reflexivity.
  - cbn [basename_from count_char].
    destruct (Ascii.eqb_spec c slash) as [->|Hc].
    + right. destruct (IH rest) as [[Hfree ->]|[Hfree [dir Hdir]]].
      * split; [exact Hfree|]. exists EmptyString. reflexivity.
      * split; [exact Hfree|]. exists (String slash dir).
        rewrite app_cons, <- Hdir. reflexivity.
    + destruct (IH seg) as [[Hfree Hseg]|[Hfree [dir Hdir]]].
      * left. split; assumption.
      * right. split; [exact Hfree|]. exists (String c dir).
        rewrite app_cons, <- Hdir. reflexivity.
Qed.

Lemma basename_final_segment (p : string) : final_segment p (basename p).
Proof.
  unfold final_segment, basename.
  destruct (basename_from_spec p p) as [[Hfree Hseg]|[Hfree Hdir]].
  - rewrite Hseg. split; [exact Hfree|]. left. reflexivity.
  - split; [exact Hfree|]. right. exact Hdir.
Qed.

Lemma final_segment_unique (p seg1 seg2 : string) :
  final_segment p seg1 -> final_segment p seg2 -> seg1 = seg2.
Proof.
  assert (Hbase : forall q seg, final_segment q seg -> basename q = seg).
  { intros q seg [Hfree [->|[dir ->]]]; unfold basename.
    - destruct (basename_from_spec seg seg) as [[_ H]|[_ [dir H]]]; [exact H|].
      apply (f_equal (count_char slash)) in H.
      rewrite !count_char_app in H. cbn in H. lia.
    - change (str1 slash +:+ seg) with (String slash seg).
      assert (H : forall d s0, basename_from (d +:+ String slash seg) s0
                               = basename_from seg seg).
      { induction d as [|c d IHd]; intros s0; [reflexivity|].
        rewrite app_cons. cbn [basename_from].
        destruct (Ascii.eqb c slash); apply IHd. }
      rewrite H.
      destruct (basename_from_spec seg seg) as [[_ H']|[_ [dir' H']]]; [exact H'|].
      apply (f_equal (count_char slash)) in H'.
      rewrite !count_char_app in H'. cbn in H'. lia. }
  intros H1 H2. rewrite <- (Hbase p seg1 H1). apply Hbase, H2.
Qed.

(** * The claims *)

(** ** Escaping *)

(** C1.  For a text [s] with exactly [n] newline characters, the escaped body
    has exactly [n] line splices (backslash, n, double quote, a real newline,
    double quote); the literal between the two outer double quotes reads back
    as [n + 1] adjacent literal segments, and their concatenation, with the
    escapes undone in one pass from the left, is [s] again. *)
Theorem escape_splices_and_round_trip (s : string) (n : nat) :
  count_char newline s = n ->
  count_sub line_splice (escape s) = n /\
  exists segs,
    literal_segments false (literal_payload (escape s)) = Some segs /\
    length segs = S n /\
    unescape (String.concat EmptyString segs) = Some s.
Proof.
  intros <-. rewrite escape_esc_map. split; [apply count_splices|].
  destruct (segments_esc_map s) as (segs & Hsegs & Hlen & Hun).
  exists segs. unfold literal_payload, str1 in *. rewrite app_cons, app_nil_l.
  cbn [literal_segments]. auto.
Qed.

Lemma escape_splices_and_round_trip_witness :
  count_char newline two_lines = 2 /\
  count_sub line_splice (escape two_lines) = 2 /\
  exists segs,
    literal_segments false (literal_payload (escape two_lines)) = Some segs /\
    length segs = 3 /\
    unescape (String.concat EmptyString segs) = Some two_lines.
Proof.
  split; [reflexivity|].
  apply (escape_splices_and_round_trip two_lines 2). reflexivity.
Defined.

Example unescape_by_passes_differs :
  let s := String backslash (str1 letter_n) in
  unescape_by_passes (escape s) = nl /\ unescape (escape s) = Some s.
Proof. split; reflexivity. Qed.

(** The claim of C3 as it is written: escaping an escaped text changes
    nothing.  One backslash refutes it: its escape is two backslashes, and
    the escape of those is four. *)
Lemma escape_not_idempotent :
  escape (escape (str1 backslash)) <> escape (str1 backslash).
Proof. vm_compute. discriminate. Qed.

(** C3, amended.  Escaping an escaped text leaves it as it is exactly when
    the text had no backslash, no double quote and no newline to begin with
    (and then the first escaping had changed nothing either); every other
    text is escaped a second time. *)
Theorem escape_idempotent_iff_plain (s : string) :
  escape (escape s) = escape s <-> plain s.
Proof.
  rewrite !escape_esc_map. split.
  - intros H. apply (f_equal String.length) in H.
    rewrite (length_esc_map (esc_map s)) in H.
    pose proof (backslashes_esc_map s) as Hle.
    unfold plain. repeat split; lia.
  - intros H. rewrite (esc_map_plain s H). apply esc_map_plain, H.
Qed.

(** C4.  For the input say, space, double quote, hi, double quote, backslash
    the escaped body is say, space, backslash, double quote, hi, backslash,
    double quote, backslash, backslash; and that is the body of the literal
    that [generate_header] writes for a file of this content. *)
Theorem escape_say_hi :
  escape say_hi = say_hi_escaped /\
  files (generate_header "say.metal" "say.h" (world_of {[ "say.metal" := say_hi ]})).2
    !! "say.h"
  = Some (comment_block "say.metal" +:+ str1 dquote +:+ say_hi_escaped +:+ str1 dquote +:+ nl).
Proof. split; reflexivity. Qed.


(** ** The header that is written *)

(** C2.  When the input can be read and the output can be opened,
    [generate_header] writes to the output path exactly: the comment line
    naming the base name of the input path, which is the final segment of
    that path, the fixed second comment line, an empty line, the escaped text
    between two double quotes and a final newline.  What the output path held
    before plays no part. *)
Theorem generate_header_writes_header
    (w : World) (input_file output_file text : string) :
  files w !! input_file = Some text ->
  read_denied w input_file = false ->
  write_refused w output_file = None ->
  exists w',
    generate_header input_file output_file w = (Ok tt, w') /\
    final_segment input_file (basename input_file) /\
    files w' !! output_file
    = Some (("// Auto-generated from " +:+ basename input_file +:+ nl)
            +:+ ("// Do not edit manually" +:+ nl)
            +:+ nl
            +:+ (str1 dquote +:+ escape (universal_newlines text) +:+ str1 dquote)
            +:+ nl).
Proof.
  intros Hin Hd Hout.
  destruct (generate_header_ok w input_file output_file text Hin Hd Hout)
    as (w' & Hrun & Hfiles & _).
  exists w'. split; [exact Hrun|]. split; [apply basename_final_segment|].
  rewrite Hfiles, lookup_insert_eq. f_equal.
  unfold header_content, comment_block, literal_payload.
  rewrite !app_assoc. reflexivity.
Qed.

Lemma generate_header_writes_header_witness :
  exists w',
    generate_header "shaders/blit.metal" "blit.h" stale_world = (Ok tt, w') /\
    final_segment "shaders/blit.metal" "blit.metal" /\
    files w' !! "blit.h"
    = Some (("// Auto-generated from " +:+ "blit.metal" +:+ nl)
            +:+ ("// Do not edit manually" +:+ nl)
            +:+ nl
            +:+ (str1 dquote +:+ escape two_lines +:+ str1 dquote)
            +:+ nl).
Proof.
  exact (generate_header_writes_header stale_world "shaders/blit.metal" "blit.h"
           two_lines eq_refl eq_refl eq_refl).
Defined.

(** C5.  When the text read from the input has no backslash, no double quote
    and no newline, the literal of the written header, which stands after the
    comment block and before the final newline, is a double quote, the text
    unchanged, and a double quote. *)
Theorem plain_text_payload
    (w : World) (input_file output_file text : string) :
  files w !! input_file = Some text ->
  read_denied w input_file = false ->
  write_refused w output_file = None ->
  plain (universal_newlines text) ->
  literal_payload (escape (universal_newlines text))
  = str1 dquote +:+ universal_newlines text +:+ str1 dquote /\
  exists w',
    generate_header input_file output_file w = (Ok tt, w') /\
    files w' !! output_file
    = Some (comment_block input_file
            +:+ (str1 dquote +:+ universal_newlines text +:+ str1 dquote)
            +:+ nl).
Proof.
  intros Hin Hd Hout Hplain.
  rewrite escape_esc_map, (esc_map_plain _ Hplain).
  split; [reflexivity|].
  destruct (generate_header_ok w input_file output_file text Hin Hd Hout)
    as (w' & Hrun & Hfiles & _).
  exists w'. split; [exact Hrun|].
  rewrite Hfiles, lookup_insert_eq, escape_esc_map, (esc_map_plain _ Hplain).
  reflexivity.
Qed.

Lemma plain_text_payload_witness :
  literal_payload (escape (universal_newlines "kernel void f() {}"))
  = str1 dquote +:+ universal_newlines "kernel void f() {}" +:+ str1 dquote /\
  exists w',
    generate_header "f.metal" "f.h" (world_of {[ "f.metal" := "kernel void f() {}" ]})
    = (Ok tt, w') /\
    files w' !! "f.h"
    = Some (comment_block "f.metal"
            +:+ (str1 dquote +:+ universal_newlines "kernel void f() {}" +:+ str1 dquote)
            +:+ nl).
Proof.
  apply (plain_text_payload (world_of {[ "f.metal" := "kernel void f() {}" ]})
           "f.metal" "f.h" "kernel void f() {}");
    try reflexivity.
  repeat split; reflexivity.
Defined.

(** C8.  When the content of the input file ends with a newline, the literal
    ends with a line splice and an empty literal: the written file is some
    text that ends with backslash, n, double quote, then a newline, then two
    double quotes alone on the last line, then the final newline. *)
Theorem trailing_newline_empty_literal
    (w : World) (input_file output_file t : string) :
  files w !! input_file = Some (t +:+ nl) ->
  read_denied w input_file = false ->
  write_refused w output_file = None ->
  exists w' before,
    generate_header input_file output_file w = (Ok tt, w') /\
    files w' !! output_file
    = Some ((before +:+ String backslash (String letter_n (str1 dquote)))
            +:+ nl +:+ empty_literal +:+ nl) /\
    last_line ((before +:+ String backslash (String letter_n (str1 dquote)))
               +:+ nl +:+ empty_literal) = empty_literal.
Proof.
  intros Hin Hd Hout.
  destruct (generate_header_ok w input_file output_file _ Hin Hd Hout)
    as (w' & Hrun & Hfiles & _).
  destruct (universal_newlines_final_newline t) as [u Hu].
  exists w', (comment_block input_file +:+ str1 dquote +:+ escape u).
  split; [exact Hrun|]. split.
  - rewrite Hfiles, lookup_insert_eq, Hu, escape_app. f_equal.
    unfold header_content, literal_payload.
    change (escape nl) with line_splice.
    unfold line_splice, empty_literal, nl, str1.
    rewrite !app_assoc, !app_cons, !app_nil_l. reflexivity.
  - unfold last_line.
    change (nl +:+ empty_literal) with (String newline empty_literal).
    rewrite last_line_from_app. reflexivity.
Qed.

Lemma trailing_newline_empty_literal_witness :
  exists w' before,
    generate_header "shaders/blit.metal" "blit.h" stale_world = (Ok tt, w') /\
    files w' !! "blit.h"
    = Some ((before +:+ String backslash (String letter_n (str1 dquote)))
            +:+ nl +:+ empty_literal +:+ nl) /\
    last_line ((before +:+ String backslash (String letter_n (str1 dquote)))
               +:+ nl +:+ empty_literal) = empty_literal.
Proof.
  apply (trailing_newline_empty_literal stale_world "shaders/blit.metal" "blit.h"
           ("float a;" +:+ nl +:+ "float b;"));
    reflexivity.
Defined.

(** C10.  For an empty input file [generate_header] does not fail, and it
    writes the two comment lines, an empty line, and the empty literal (two
    double quotes) with the final newline. *)
Theorem empty_input_empty_literal (w : World) (input_file output_file : string) :
  files w !! input_file = Some EmptyString ->
  read_denied w input_file = false ->
  write_refused w output_file = None ->
  exists w',
    generate_header input_file output_file w = (Ok tt, w') /\
    files w' !! output_file
    = Some (("// Auto-generated from " +:+ basename input_file +:+ nl)
            +:+ ("// Do not edit manually" +:+ nl)
            +:+ nl
            +:+ empty_literal
            +:+ nl).
Proof.
  intros Hin Hd Hout.
  destruct (generate_header_ok w input_file output_file _ Hin Hd Hout)
    as (w' & Hrun & Hfiles & _).
  exists w'. split; [exact Hrun|].
  rewrite Hfiles, lookup_insert_eq. f_equal.
  unfold header_content, comment_block. rewrite !app_assoc. reflexivity.
Qed.

Lemma empty_input_empty_literal_witness :
  exists w',
    generate_header "empty.metal" "empty.h" (world_of {[ "empty.metal" := EmptyString ]})
    = (Ok tt, w') /\
    files w' !! "empty.h"
    = Some (("// Auto-generated from " +:+ basename "empty.metal" +:+ nl)
            +:+ ("// Do not edit manually" +:+ nl)
            +:+ nl
            +:+ empty_literal
            +:+ nl).
Proof.
  apply (empty_input_empty_literal (world_of {[ "empty.metal" := EmptyString ]})
           "empty.metal" "empty.h");
    reflexivity.
Defined.


(** ** Failures *)

(** C6.  When the input path names no file, or a file that may not be read,
    the run ends with the [OSError] (Python's [IOError]) of the one attempt to
    open the input, file not found for a missing file and permission denied
    otherwise: the exit status is 1, [open] was called once, for the input
    and never for the output, nothing is printed, and no file is created or
    changed. *)
Theorem unreadable_input_fails
    (w : World) (prog input_file output_file : string) :
  files w !! input_file = None \/ read_denied w input_file = true ->
  exists w',
    generate_header input_file output_file w
    = (Raise (OSError (read_error w input_file) input_file), w') /\
    run [prog; input_file; output_file] w = (1%Z, w') /\
    files w' = files w /\
    stdout w' = stdout w /\
    opened w' = (opened w ++ [(input_file, ModeR)])%list.
Proof.
  intros H. exists (log_open input_file ModeR w).
  pose proof (generate_header_unreadable w input_file output_file H) as Hrun.
  split; [exact Hrun|]. split; [|repeat split; reflexivity].
  unfold run, main. cbn [length Nat.eqb negb index lookup list_lookup].
  unfold bind at 1 2, ret. rewrite Hrun. reflexivity.
Qed.

Lemma unreadable_input_fails_witness :
  exists w',
    generate_header "missing.metal" "blit.h" stale_world
    = (Raise (OSError (read_error stale_world "missing.metal") "missing.metal"), w') /\
    run ["generate_shader_header.py"; "missing.metal"; "blit.h"] stale_world = (1%Z, w') /\
    files w' = files stale_world /\
    stdout w' = stdout stale_world /\
    opened w' = (opened stale_world ++ [("missing.metal", ModeR)])%list.
Proof.
  apply (unreadable_input_fails stale_world "generate_shader_header.py"
           "missing.metal" "blit.h").
  left. reflexivity.
Defined.

(** C7.  With an argument list of any length but three (the program name and
    two arguments), the script prints the usage line to standard output and
    exits with status 1; [open] is not called and no file is created or
    changed. *)
Theorem wrong_argument_count_usage (argv : list string) (w : World) :
  length argv <> 3 ->
  exists w',
    run argv w = (1%Z, w') /\
    stdout w' = (stdout w ++ [usage +:+ nl])%list /\
    files w' = files w /\
    opened w' = opened w.
Proof.
  intros Hlen. unfold run, main.
  destruct (Nat.eqb_spec (length argv) 3) as [Heq|_]; [contradiction|].
  cbn [negb]. unfold bind, print, sys_exit, raise. cbn [exit_status].
  eexists. split; [reflexivity|]. repeat split; reflexivity.
Qed.

Lemma wrong_argument_count_usage_witness :
  exists w',
    run ["generate_shader_header.py"; "shaders/blit.metal"] stale_world = (1%Z, w') /\
    stdout w' = (stdout stale_world ++ [usage +:+ nl])%list /\
    files w' = files stale_world /\
    opened w' = opened stale_world.
Proof.
  apply (wrong_argument_count_usage
           ["generate_shader_header.py"; "shaders/blit.metal"] stale_world).
  discriminate.
Defined.

(** ** Determinism *)

(** The claim of C9 as it is written asks for the same confirmation line
    whenever the base names and the contents agree.  Two inputs of the same
    base name and content in different directories get the same header and
    different confirmation lines. *)
Lemma confirmation_names_full_path :
  basename "metal/blit.metal" = basename "gl/blit.metal" /\
  files two_dirs !! "metal/blit.metal" = files two_dirs !! "gl/blit.metal" /\
  (generate_header "metal/blit.metal" "blit.h" two_dirs).1 = Ok tt /\
  (generate_header "gl/blit.metal" "blit.h" two_dirs).1 = Ok tt /\
  files (generate_header "metal/blit.metal" "blit.h" two_dirs).2 !! "blit.h"
  = files (generate_header "gl/blit.metal" "blit.h" two_dirs).2 !! "blit.h" /\
  stdout (generate_header "metal/blit.metal" "blit.h" two_dirs).2
  <> stdout (generate_header "gl/blit.metal" "blit.h" two_dirs).2.
Proof. repeat split; try reflexivity. vm_compute. discriminate. Qed.

(** C9, amended.  Two successful runs whose input paths have the same base
    name and whose input files hold the same content write the same text to
    their output paths, whatever else the two worlds hold.  The confirmation
    line of a run is made of its two path arguments as they were given, the
    output path and the whole input path, and of nothing else: runs given the
    same two paths print the same line. *)
Theorem generate_header_deterministic
    (w1 w2 : World) (in1 in2 out1 out2 text : string) :
  files w1 !! in1 = Some text -> read_denied w1 in1 = false ->
  write_refused w1 out1 = None ->
  files w2 !! in2 = Some text -> read_denied w2 in2 = false ->
  write_refused w2 out2 = None ->
  basename in1 = basename in2 ->
  exists w1' w2' written,
    generate_header in1 out1 w1 = (Ok tt, w1') /\
    generate_header in2 out2 w2 = (Ok tt, w2') /\
    files w1' !! out1 = Some written /\
    files w2' !! out2 = Some written /\
    stdout w1' = (stdout w1 ++ [confirmation out1 in1 +:+ nl])%list /\
    stdout w2' = (stdout w2 ++ [confirmation out2 in2 +:+ nl])%list.
Proof.
  intros Hin1 Hd1 Hout1 Hin2 Hd2 Hout2 Hbase.
  destruct (generate_header_ok w1 in1 out1 text Hin1 Hd1 Hout1)
    as (w1' & Hrun1 & Hfiles1 & Hstd1 & _).
  destruct (generate_header_ok w2 in2 out2 text Hin2 Hd2 Hout2)
    as (w2' & Hrun2 & Hfiles2 & Hstd2 & _).
  exists w1', w2', (header_content in1 (escape (universal_newlines text))).
  repeat split; try assumption.
  - rewrite Hfiles1. apply lookup_insert_eq.
  - rewrite Hfiles2, (header_content_basename in1 in2) by assumption.
    apply lookup_insert_eq.
Qed.

Lemma generate_header_deterministic_witness :
  exists w1' w2' written,
    generate_header "metal/blit.metal" "blit.h" two_dirs = (Ok tt, w1') /\
    generate_header "gl/blit.metal" "gl.h" stale_world_gl = (Ok tt, w2') /\
    files w1' !! "blit.h" = Some written /\
    files w2' !! "gl.h" = Some written /\
    stdout w1' = (stdout two_dirs ++ [confirmation "blit.h" "metal/blit.metal" +:+ nl])%list /\
    stdout w2' = (stdout stale_world_gl ++ [confirmation "gl.h" "gl/blit.metal" +:+ nl])%list.
Proof.
  apply (generate_header_deterministic two_dirs stale_world_gl
           "metal/blit.metal" "gl/blit.metal" "blit.h" "gl.h" two_lines);
    reflexivity.
Defined.


(** * Further properties of the script *)

(** ** The escaping pass *)

(** X1.  The three replacements of lines 14 to 16, done one after the other,
    come to one pass that escapes every character of the input once: a
    backslash becomes two, a double quote gets a backslash, a newline becomes
    the line splice and every other character stays.  No replacement touches
    what an earlier one has written. *)
Theorem escape_one_pass (s : string) : escape s = esc_map s.
Proof. apply escape_esc_map. Qed.

(** X2.  The escaped text is longer than the input by one character for
    every backslash and every double quote, and by four for every newline. *)
Theorem escape_length (s : string) :
  String.length (escape s)
  = String.length s + count_char backslash s + count_char dquote s
    + 4 * count_char newline s.
Proof. rewrite escape_esc_map. apply length_esc_map. Qed.

(** X3.  Escaping loses nothing: two different texts have different
    escaped forms. *)
Theorem escape_injective (s1 s2 : string) : s1 <> s2 -> escape s1 <> escape s2.
Proof.
  rewrite !escape_esc_map. intros Hne Heq. apply Hne.
  destruct (segments_esc_map s1) as (segs1 & Hsegs1 & _ & Hun1).
  destruct (segments_esc_map s2) as (segs2 & Hsegs2 & _ & Hun2).
  rewrite Heq, Hsegs2 in Hsegs1. injection Hsegs1 as <-.
  rewrite Hun2 in Hun1. injection Hun1 as ->. reflexivity.
Qed.

Lemma escape_injective_witness :
  str1 backslash <> two_backslashes /\
  escape (str1 backslash) <> escape two_backslashes.
Proof.
  split; [discriminate|].
  apply (escape_injective (str1 backslash) two_backslashes). discriminate.
Defined.

(** X4.  Escaping goes through concatenation: the escaped form of two texts
    put together is the two escaped forms put together, so a text can be
    escaped piece by piece. *)
Theorem escape_concat (a b : string) : escape (a +:+ b) = escape a +:+ escape b.
Proof. rewrite !escape_esc_map. apply esc_map_app. Qed.

(** X5.  The texts that escaping leaves as they are, are exactly the texts
    without backslash, double quote and newline. *)
Theorem escape_fixed_iff_plain (s : string) : escape s = s <-> plain s.
Proof.
  rewrite escape_esc_map. split.
  - intros H. apply (f_equal String.length) in H.
    rewrite length_esc_map in H. unfold plain. repeat split; lia.
  - apply esc_map_plain.
Qed.

Lemma count_newline_esc_map (s : string) :
  count_char newline (esc_map s) = count_char newline s.
Proof.
  induction s as [|c s IH]; [reflexivity|].
  cbn [esc_map]. rewrite count_char_app, IH. cbn [count_char].
  char_cases c.
  - rewrite esc_char_backslash. reflexivity.
  - rewrite esc_char_dquote. reflexivity.
  - rewrite esc_char_newline. reflexivity.
  - rewrite esc_char_other by assumption. cbn [str1 count_char]. lia.
Qed.

(** X6.  The header has one line for every line of the input, behind the
    three lines of the comment block: the number of newlines of the header
    text is that of the input text and of the base name of the input path,
    and four more. *)
Theorem header_line_count (input_file s : string) :
  count_char newline (header_content input_file (escape s))
  = count_char newline (basename input_file) + count_char newline s + 4.
Proof.
  unfold header_content, comment_block, literal_payload.
  rewrite !count_char_app, escape_esc_map, count_newline_esc_map.
  change (count_char newline "// Auto-generated from ") with 0.
  change (count_char newline "// Do not edit manually") with 0.
  change (count_char newline nl) with 1.
  change (count_char newline (str1 dquote)) with 0.
  lia.
Qed.


(** ** The ways a run ends *)

Lemma set_file_twice (path a b : string) (w : World) :
  set_file path b (set_file path a w) = set_file path b w.
Proof. unfold set_file. cbn [files read_denied write_refused stdout opened].
  rewrite insert_insert_eq. reflexivity. Qed.

Lemma generate_header_refused
    (w : World) (i o text : string) (kind : OSErrorKind) :
  files w !! i = Some text -> read_denied w i = false ->
  write_refused w o = Some kind ->
  generate_header i o w
  = (Raise (OSError kind o), log_open o ModeW (log_open i ModeR w)).
Proof.
  intros Hin Hd Hout. unfold generate_header, bind.
  rewrite (open_read_ok w i text) by assumption.
  unfold open_write. cbn [write_refused log_open]. rewrite Hout. reflexivity.
Qed.

Lemma generate_header_written (w : World) (i o text : string) :
  files w !! i = Some text -> read_denied w i = false ->
  write_refused w o = None ->
  generate_header i o w
  = (Ok tt,
     (print (confirmation o i)
        (set_file o (header_content i (escape (universal_newlines text)))
           (log_open o ModeW (log_open i ModeR w)))).2).
Proof.
  intros Hin Hd Hout. unfold generate_header, bind.
  rewrite (open_read_ok w i text) by assumption.
  unfold open_write. cbn [write_refused log_open]. rewrite Hout.
  unfold write. cbn [files set_file]. rewrite lookup_insert_eq.
  cbn [default]. rewrite app_nil_l.
  rewrite set_file_twice. reflexivity.
Qed.

Lemma main_three (prog i o : string) (w : World) :
  main [prog; i; o] w = generate_header i o w.
Proof.
  unfold main. cbn [length Nat.eqb negb index lookup list_lookup].
  unfold bind at 1 2, ret. reflexivity.
Qed.

Lemma main_outcome (argv : list string) (w : World) :
  Outcome argv w (main argv w).1 (main argv w).2.
Proof.
  destruct (decide (length argv = 3)) as [Hlen|Hlen].
  - destruct argv as [|prog [|i [|o [|? ?]]]]; try discriminate Hlen.
    rewrite main_three.
    destruct (files w !! i) as [text|] eqn:Hin.
    + destruct (read_denied w i) eqn:Hd.
      * rewrite generate_header_unreadable by auto.
        apply (InputUnreadable _ _ prog i o); auto.
      * destruct (write_refused w o) as [kind|] eqn:Hout.
        -- rewrite (generate_header_refused w i o text kind) by assumption.
           apply (OutputRefused _ _ prog i o text kind); auto.
        -- rewrite (generate_header_written w i o text) by assumption.
           apply (HeaderWritten _ _ prog i o text); auto.
    + rewrite generate_header_unreadable by auto.
      apply (InputUnreadable _ _ prog i o); auto.
  - unfold main. destruct (Nat.eqb_spec (length argv) 3) as [?|_]; [contradiction|].
    cbn [negb]. apply UsageShown, Hlen.
Qed.

Lemma run_main (argv : list string) (w : World) :
  run argv w = (exit_status (main argv w).1, (main argv w).2).
Proof. unfold run. destruct (main argv w). reflexivity. Qed.


(** X7.  When the input is read and the output path cannot be opened for
    writing, the run ends with the [OSError] of opening the output: the exit
    status is 1, both files were opened, the input first, nothing is printed
    and no file is created or changed. *)
Theorem output_refused_fails
    (w : World) (prog input_file output_file text : string) (kind : OSErrorKind) :
  files w !! input_file = Some text ->
  read_denied w input_file = false ->
  write_refused w output_file = Some kind ->
  exists w',
    generate_header input_file output_file w
    = (Raise (OSError kind output_file), w') /\
    run [prog; input_file; output_file] w = (1%Z, w') /\
    files w' = files w /\
    stdout w' = stdout w /\
    opened w' = (opened w ++ [(input_file, ModeR); (output_file, ModeW)])%list.
Proof.
  intros Hin Hd Hout.
  exists (log_open output_file ModeW (log_open input_file ModeR w)).
  pose proof (generate_header_refused w _ _ _ _ Hin Hd Hout) as Hrun.
  split; [exact Hrun|]. split.
  - rewrite run_main, main_three, Hrun. reflexivity.
  - unfold log_open. cbn [files stdout opened].
    rewrite <- (assoc_L (++)). repeat split; reflexivity.
Qed.

Lemma output_refused_fails_witness :
  exists w',
    generate_header "shaders/blit.metal" "blit.h" read_only_world
    = (Raise (OSError PermissionError "blit.h"), w') /\
    run ["generate_shader_header.py"; "shaders/blit.metal"; "blit.h"] read_only_world
    = (1%Z, w') /\
    files w' = files read_only_world /\
    stdout w' = stdout read_only_world /\
    opened w'
    = (opened read_only_world ++ [("shaders/blit.metal", ModeR); ("blit.h", ModeW)])%list.
Proof.
  apply (output_refused_fails read_only_world "generate_shader_header.py"
           "shaders/blit.metal" "blit.h" two_lines PermissionError);
    reflexivity.
Defined.

(** Take the result and the world of [main] apart along its outcome. *)
Ltac by_outcome argv w :=
  rewrite ?run_main;
  let r := fresh "r" in
  let w' := fresh "w'" in
  let H := fresh "Hout" in
  pose proof (main_outcome argv w) as H;
  set (r := (main argv w).1) in *;
  set (w' := (main argv w).2) in *;
  clearbody r w';
  destruct H as [Hlen|prog i o -> Hbad|prog i o text kind -> Hin Hd Hw
                |prog i o text -> Hin Hd Hw].

(** X10.  The script never fails on the argument list itself: whatever the
    arguments and the world, [main] does not end with an [IndexError].  The
    test of the length stands before the two uses of [sys.argv]. *)
Theorem main_never_index_error (argv : list string) (w : World) :
  (main argv w).1 <> Raise IndexError.
Proof. by_outcome argv w; discriminate. Qed.

(** ** The base name in the header *)

Lemma basename_from_no_slash (name seg : string) :
  count_char slash name = 0 -> basename_from name seg = seg.
Proof.
  revert seg. induction name as [|c name IH]; intros seg; [reflexivity|].
  cbn [count_char basename_from].
  destruct (Ascii.eqb c slash); [discriminate|]. intros H. apply IH, H.
Qed.

Lemma basename_from_slash (dir name seg : string) :
  basename_from (dir +:+ String slash name) seg = basename_from name name.
Proof.
  revert seg. induction dir as [|c dir IH]; intros seg.
  - reflexivity.
  - rewrite app_cons. cbn [basename_from].
    destruct (Ascii.eqb c slash); apply IH.
Qed.

(** X13.  The header does not tell where the input was: for a file name
    without a slash, the header written for the file under any directory path
    is the header written for the bare file name. *)
Theorem header_ignores_directory (dir name shader_source : string) :
  count_char slash name = 0 ->
  header_content (dir +:+ str1 slash +:+ name) shader_source
  = header_content name shader_source.
Proof.
  intros Hname. apply header_content_basename.
  unfold basename. change (str1 slash +:+ name) with (String slash name).
  rewrite basename_from_slash. rewrite !basename_from_no_slash by assumption.
  reflexivity.
Qed.

Lemma header_ignores_directory_witness :
  count_char slash "blit.metal" = 0 /\
  header_content ("video/out/metal" +:+ str1 slash +:+ "blit.metal") (escape two_lines)
  = header_content "blit.metal" (escape two_lines).
Proof.
  split; [reflexivity|].
  apply (header_ignores_directory "video/out/metal" "blit.metal" (escape two_lines)).
  reflexivity.
Defined.

(** ** Line endings of the input *)

Lemma universal_newlines_dos (t : string) :
  count_char carriage_return t = 0 ->
  universal_newlines (dos_line_endings t) = t.
Proof.
  unfold dos_line_endings. rewrite replace_single.
  set (crlf := String carriage_return (str1 newline)).
  induction t as [|c t IH]; [reflexivity|].
  cbn [count_char subst_char].
  destruct (Ascii.eqb_spec c newline) as [->|Hn].
  - intros H.
    change (crlf +:+ ?x) with (String carriage_return (String newline x)).
    cbn [universal_newlines]. rewrite !Ascii.eqb_refl, IH by exact H. reflexivity.
  - destruct (Ascii.eqb c carriage_return) eqn:Hc; [discriminate|].
    intros H. cbn [universal_newlines]. rewrite Hc, IH by exact H. reflexivity.
Qed.

(** X14.  An input file with the line endings of DOS gives the header of the
    same text with plain newlines: the carriage returns do not reach the
    header. *)
Theorem dos_input_same_header
    (w : World) (input_file output_file t : string) :
  count_char carriage_return t = 0 ->
  files w !! input_file = Some (dos_line_endings t) ->
  read_denied w input_file = false ->
  write_refused w output_file = None ->
  exists w',
    generate_header input_file output_file w = (Ok tt, w') /\
    files w' !! output_file = Some (header_content input_file (escape t)).
Proof.
  intros Hcr Hin Hd Hout.
  destruct (generate_header_ok w input_file output_file _ Hin Hd Hout)
    as (w' & Hrun & Hfiles & _).
  exists w'. split; [exact Hrun|].
  rewrite Hfiles, lookup_insert_eq, universal_newlines_dos by assumption.
  reflexivity.
Qed.

Lemma dos_input_same_header_witness :
  exists w',
    generate_header "blit.metal" "blit.h"
      (world_of {[ "blit.metal" := dos_line_endings two_lines ]}) = (Ok tt, w') /\
    files w' !! "blit.h" = Some (header_content "blit.metal" (escape two_lines)).
Proof.
  apply (dos_input_same_header
           (world_of {[ "blit.metal" := dos_line_endings two_lines ]})
           "blit.metal" "blit.h" two_lines);
    reflexivity.
Defined.

(** ** Reading the written file back *)





